(** * go-grep: a shallow embedding of [pkg/grep.go] and [pkg/grep_buffer.go]

    The model follows the last revision of [grep.go] (the one with
    [GrepOption], [GrepResult], [GrepR] over [fs.FS] and the
    [MAX_OPEN_FILE_DESCRIPTORS] limiter). Go [int] values are modelled as [Z]
    (no wrap-around is reachable for line counts and context sizes of
    realistic inputs); Go strings as Stdlib [string] (byte strings). *)

From Stdlib Require Import ZArith List String Ascii Bool Lia DecimalString.
Import ListNotations.

Open Scope Z_scope.

(** ** Strings: [strings.Contains], [strings.ToLower], [strings.Index],
    [strings.TrimPrefix] *)

Fixpoint hasPrefix (s p : string) : bool :=
  match p, s with
  | EmptyString, _ => true
  | String c p', String d s' => Ascii.eqb c d && hasPrefix s' p'
  | String _ _, EmptyString => false
  end.

(** [strings.Contains(s, substr)]: [substr] occurs at some byte offset of [s]. *)
Fixpoint contains (s substr : string) : bool :=
  hasPrefix s substr ||
  match s with
  | EmptyString => false
  | String _ s' => contains s' substr
  end.

Definition lowerAscii (c : ascii) : ascii :=
  let n := nat_of_ascii c in
  if (65 <=? n)%nat && (n <=? 90)%nat then ascii_of_nat (n + 32) else c.

(** [strings.ToLower], on the ASCII range (upper-case letters A-Z are
    mapped to a-z, every other byte is kept). *)
Fixpoint ToLower (s : string) : string :=
  match s with
  | EmptyString => EmptyString
  | String c s' => String (lowerAscii c) (ToLower s')
  end.

(** The check at the start of [strings.ToLower]: no byte is [>= utf8.RuneSelf]. *)
Definition isASCII (s : string) : bool :=
  forallb (fun c => (nat_of_ascii c <? 128)%nat) (list_ascii_of_string s).

(** [strings.ToLower] as Go writes it: an ASCII string takes the fast path,
    which lowers A-Z byte by byte ([ToLower] above; when no byte is upper
    case it returns [s] itself, the same string); any other string is
    [strings.Map(unicode.ToLower, s)], whose Unicode case tables are not
    modelled and are the parameter [runeLower]. *)
Definition GoToLower (runeLower : string -> string) (s : string) : string :=
  if isASCII s then ToLower s else runeLower s.

(** [strings.Index(s, substr)]: first byte offset, or -1. *)
Fixpoint Index (s substr : string) : Z :=
  if hasPrefix s substr then 0 else
  match s with
  | EmptyString => -1
  | String _ s' => let i := Index s' substr in if i <? 0 then -1 else i + 1
  end.

Fixpoint dropPrefix (s p : string) : string :=
  match p, s with
  | String _ p', String _ s' => dropPrefix s' p'
  | _, _ => s
  end.

(** [strings.TrimPrefix(s, prefix)]. *)
Definition TrimPrefix (s prefix : string) : string :=
  if hasPrefix s prefix then dropPrefix s prefix else s.

(** ** Errors *)

Inductive grep_error :=
| ErrNotExist (path : string)     (** ["<path>: file does not exist"] *)
| ErrIsDirectory (path : string)  (** ["<path>: is a directory"] *)
| ErrPermission (path : string)   (** ["<path>: permission denied"] *)
| ErrOther (msg : string).        (** any other error of the fs or reader *)

(** ** Readers

    A reader, as [bufio.Scanner] with [bufio.ScanLines] sees it: the tokens
    (lines) it yields, in order, followed by the error [scanner.Err()]
    reports, if any (a failing [Read] or a token longer than the scanner's
    buffer). *)
Record stream := mkStream { tokens : list string; scanErr : option grep_error }.

Definition dropCR (s : string) : string :=
  match String.length s with
  | O => s
  | S n => if String.eqb (substring n 1 s) (String (ascii_of_nat 13) EmptyString)
           then substring 0 n s else s
  end.

(** [bufio.ScanLines] over an in-memory text: split at each newline, drop a
    trailing carriage return, no empty token after a final newline. *)
Fixpoint scanLinesAux (cur : string) (s : string) : list string :=
  match s with
  | EmptyString => if String.eqb cur EmptyString then [] else [dropCR cur]
  | String c s' =>
      if Ascii.eqb c (ascii_of_nat 10) then dropCR cur :: scanLinesAux EmptyString s'
      else scanLinesAux (cur ++ String c EmptyString)%string s'
  end.

(** A reader over a text that never fails (as [bytes.NewReader] or an
    [fstest.MapFile]). *)
Definition textReader (s : string) : stream := mkStream (scanLinesAux EmptyString s) None.

(** ** [grep_buffer.go] *)

Record grepBuffer := mkGrepBuffer { buff : list string; size : Z }.

Definition NewGrepBuffer (size : Z) : grepBuffer :=
  if size =? 0 then mkGrepBuffer [] 0
  else mkGrepBuffer [] size.

(** [s[1:]] on a slice: panics ([None]) when the slice is empty. *)
Definition sliceFrom1 {A} (s : list A) : option (list A) :=
  match s with
  | [] => None
  | _ :: t => Some t
  end.

(** [func (b *grepBuffer) Push(data string)]; [None] is a run-time panic. *)
Definition Push (b : grepBuffer) (data : string) : option grepBuffer :=
  if size b =? 0 then Some b
  else
    let kept := if Z.of_nat (List.length (buff b)) =? size b
                then sliceFrom1 (buff b) else Some (buff b) in
    match kept with
    | None => None
    | Some l => Some (mkGrepBuffer (l ++ [data]) (size b))
    end.

(** [func (b *grepBuffer) Dump() []string]. *)
Definition Dump (b : grepBuffer) : list string := buff b.

(** A sequence of pushes, stopping at a panic. *)
Fixpoint pushAll (b : grepBuffer) (xs : list string) : option grepBuffer :=
  match xs with
  | [] => Some b
  | x :: xs' => match Push b x with
                | None => None
                | Some b' => pushAll b' xs'
                end
  end.

(** ** Options and results *)

Module GrepOption.
Record t := mk {
  OrigPath : string;
  Path : string;
  Stdin : stream;
  Keyword : string;
  IgnoreCase : bool;
  LinesBeforeMatch : Z;
  LinesAfterMatch : Z;
  SearchDir : bool;
  LineCount : bool
}.
End GrepOption.

Module GrepResult.
Record t := mk {
  Path : string;
  MatchedLines : list string;
  LineCount : Z;
  Error : option grep_error
}.
(** The zero value [GrepResult{}], and [GrepResult{Error: err}]. *)
Definition zero : t := mk EmptyString [] 0 None.
Definition ofError (e : grep_error) : t := mk EmptyString [] 0 (Some e).
End GrepResult.

(** ** [searchString] *)

Section SearchString.
(** The lowering function [strings.ToLower]. *)
Variable lower : string -> string.
Variable opt : GrepOption.t.
Variable keyword : string.

(** The [for scanner.Scan()] loop; [None] is a panic of [Push]. *)
Fixpoint scanLoop (grepBuffer : grepBuffer) (afterMatchCount : Z)
    (result : list string) (toks : list string) : option (list string) :=
  match toks with
  | [] => Some result
  | text :: rest =>
      let line := if GrepOption.IgnoreCase opt then lower text else text in
      let '(result, afterMatchCount) :=
        if afterMatchCount >? 0 then (result ++ [text], afterMatchCount - 1)
        else (result, afterMatchCount) in
      let '(result, afterMatchCount) :=
        if contains line keyword then
          let result := if GrepOption.LinesBeforeMatch opt >? 0
                        then result ++ Dump grepBuffer else result in
          let result := result ++ [text] in
          let afterMatchCount :=
            if GrepOption.LinesAfterMatch opt >? 0
            then afterMatchCount + GrepOption.LinesAfterMatch opt
            else afterMatchCount in
          (result, afterMatchCount)
        else (result, afterMatchCount) in
      if GrepOption.LinesBeforeMatch opt >? 0 then
        match Push grepBuffer text with
        | None => None
        | Some b => scanLoop b afterMatchCount result rest
        end
      else scanLoop grepBuffer afterMatchCount result rest
  end.
End SearchString.

(** [func searchString(r io.Reader, option GrepOption) ([]string, error)],
    with [strings.ToLower] given as [lower]; [None] is a panic. *)
Definition searchStringWith (lower : string -> string) (r : stream) (opt : GrepOption.t)
    : option (list string * option grep_error) :=
  let grepBuffer := NewGrepBuffer (GrepOption.LinesBeforeMatch opt) in
  let keyword := if GrepOption.IgnoreCase opt
                 then lower (GrepOption.Keyword opt) else GrepOption.Keyword opt in
  match scanLoop lower opt keyword grepBuffer 0 [] (tokens r) with
  | None => None
  | Some result =>
      match scanErr r with
      | Some err => Some ([], Some err)
      | None => Some (result, None)
      end
  end.

(** [searchString] with the ASCII lowering [ToLower], which is Go's
    [strings.ToLower] on ASCII text ([GoToLower]); [Grep] and [GrepR] below
    use it. *)
Definition searchString (r : stream) (opt : GrepOption.t)
    : option (list string * option grep_error) :=
  searchStringWith ToLower r opt.

(** ** The file system ([fs.FS]) and its operations

    A file-system entry is a directory or a regular file with its permission
    bits, the error [Open] fails with (if any), and the reader [Open] returns
    otherwise. [fs.Stat] and [Open] look the path up. The operations [Grep]
    performs are recorded in a trace. *)
Inductive node :=
| Dir
| File (mode : Z) (openErr : option grep_error) (contents : stream).

Definition FS := list (string * node).

Fixpoint lookup (fSys : FS) (p : string) : option node :=
  match fSys with
  | [] => None
  | (q, n) :: rest => if String.eqb q p then Some n else lookup rest p
  end.

Inductive fsop := OpStat (p : string) | OpOpen (p : string) | OpRead (p : string) | OpClose (p : string).

(** [fs.FileMode.Perm()]: the low nine permission bits. *)
Definition Perm (mode : Z) : Z := Z.land mode 511.

(** [func isValid(fSys fs.FS, option GrepOption) error]; note the constant
    [400] of the source, a decimal literal. *)
Definition isValid (fSys : FS) (opt : GrepOption.t) : list fsop * option grep_error :=
  let tr := [OpStat (GrepOption.Path opt)] in
  match lookup fSys (GrepOption.Path opt) with
  | None => (tr, Some (ErrNotExist (GrepOption.OrigPath opt)))
  | Some Dir => (tr, Some (ErrIsDirectory (GrepOption.OrigPath opt)))
  | Some (File mode _ _) =>
      if Z.land (Perm mode) 400 =? 0
      then (tr, Some (ErrPermission (GrepOption.Path opt)))
      else (tr, None)
  end.

(** [func getReader(...) (io.Reader, func(), error)]: the reader and the path
    of the file the cleanup closes (if one was opened), or the error. *)
Definition getReader (fSys : FS) (opt : GrepOption.t)
    : list fsop * ((stream * option string) + grep_error) :=
  let p := GrepOption.Path opt in
  if negb (String.eqb p EmptyString) then
    let '(tr, err) := isValid fSys opt in
    match err with
    | Some e => (tr, inr e)
    | None =>
        let tr := tr ++ [OpOpen p] in
        match lookup fSys p with
        | Some (File _ None r) => (tr, inl (r, Some p))
        | Some (File _ (Some e) _) => (tr, inr e)
        | _ => (tr, inr (ErrOther p))
        end
    end
  else ([], inl (GrepOption.Stdin opt, None)).

(** [func Grep(fSys fs.FS, option GrepOption) GrepResult]: the trace of file
    operations and the result ([None] is a panic). *)
Definition Grep (fSys : FS) (opt : GrepOption.t) : list fsop * option GrepResult.t :=
  let '(tr, rd) := getReader fSys opt in
  match rd with
  | inr err => (tr, Some (GrepResult.ofError err))
  | inl (r, handle) =>
      let io := match handle with
                | Some p => [OpRead p; OpClose p]
                | None => []
                end in
      let tr := tr ++ io in
      match searchString r opt with
      | None => (tr, None)
      | Some (_, Some err) => (tr, Some (GrepResult.ofError err))
      | Some (result, None) =>
          if GrepOption.LineCount opt
          then (tr, Some (GrepResult.mk (GrepOption.Path opt) [] (Z.of_nat (List.length result)) None))
          else (tr, Some (GrepResult.mk (GrepOption.Path opt) result 0 None))
      end
  end.

(** [s[i:]] on a string: panics ([None]) out of [0 <= i <= len(s)]. *)
Definition sliceStringFrom (s : string) (i : Z) : option string :=
  if (i <? 0) || (Z.of_nat (String.length s) <? i) then None
  else Some (substring (Z.to_nat i) (String.length s - Z.to_nat i) s).

(** [func normalisePathFromRoot(rootPath, dirPath string) string]. *)
Definition normalisePathFromRoot (rootPath dirPath : string) : option string :=
  let dirPathClean := TrimPrefix dirPath "../" in
  let idx := Index rootPath dirPathClean in
  match sliceStringFrom rootPath (idx + Z.of_nat (String.length dirPathClean)) with
  | None => None
  | Some tail => Some (dirPath ++ tail)%string
  end.

(** ** [GrepR] *)

(** One call of the [fs.WalkDir] visitor: the path, and either the walk error
    or whether the entry is a directory. *)
Inductive walkEntry := WalkErr (e : grep_error) | WalkEntry (isDir : bool).

Definition MAX_OPEN_FILE_DESCRIPTORS : Z := 1024.

Definition childOption (parentOption : GrepOption.t) (path : string) : GrepOption.t :=
  GrepOption.mk (GrepOption.Path parentOption) path (mkStream [] None)
    (GrepOption.Keyword parentOption) (GrepOption.IgnoreCase parentOption)
    (GrepOption.LinesBeforeMatch parentOption) (GrepOption.LinesAfterMatch parentOption)
    false (GrepOption.LineCount parentOption).

(** The goroutine of one visited entry: the value the collector receives on
    its channel (the zero value when the goroutine closes the channel without
    sending) and the new [openFileLimit]. [None]: the goroutine panics, or
    waits for a slot that, in the schedule modelled here, is never freed. *)
Definition worker (fSys : FS) (parentOption : GrepOption.t) (openFileLimit : Z)
    (path : string) (w : walkEntry) : option (GrepResult.t * Z) :=
  match w with
  | WalkErr err => Some (GrepResult.ofError err, openFileLimit)
  | WalkEntry true => Some (GrepResult.zero, openFileLimit)
  | WalkEntry false =>
      if openFileLimit <=? 0 then None else
      let openFileLimit := openFileLimit - 1 in
      match snd (Grep fSys (childOption parentOption path)) with
      | None => None
      | Some result =>
          match GrepResult.Error result with
          | Some _ => Some (result, openFileLimit)
          | None =>
              let openFileLimit := openFileLimit + 1 in
              if (Nat.eqb (List.length (GrepResult.MatchedLines result)) 0)
                 && (GrepResult.LineCount result =? 0)
              then Some (GrepResult.zero, openFileLimit)
              else match normalisePathFromRoot path (GrepOption.OrigPath parentOption) with
                   | None => None
                   | Some p =>
                       Some (GrepResult.mk p (GrepResult.MatchedLines result)
                               (GrepResult.LineCount result) (GrepResult.Error result),
                             openFileLimit)
                   end
          end
      end
  end.

(** The goroutines run one after another, in discovery order: one of the
    schedules the [sync.Cond] limiter admits. Each file's result depends only
    on the file; the schedule only decides whether a goroutine ever gets a
    slot. The values received, channel by channel. *)
Fixpoint runWorkers (fSys : FS) (parentOption : GrepOption.t) (openFileLimit : Z)
    (walk : list (string * walkEntry)) : option (list GrepResult.t) :=
  match walk with
  | [] => Some []
  | (path, w) :: rest =>
      match worker fSys parentOption openFileLimit path w with
      | None => None
      | Some (r, openFileLimit') =>
          match runWorkers fSys parentOption openFileLimit' rest with
          | None => None
          | Some rs => Some (r :: rs)
          end
      end
  end.

(** The collector loop of [GrepR]. *)
Definition collate (received : list GrepResult.t) : list GrepResult.t :=
  filter (fun result => negb (Nat.eqb (List.length (GrepResult.MatchedLines result)) 0
                              && (GrepResult.LineCount result =? 0))) received.

(** [func GrepR(fSys fs.FS, parentOption GrepOption) []GrepResult], over the
    visitor calls [walk] of [fs.WalkDir(fSys, parentOption.Path, ...)]. *)
Definition GrepR (fSys : FS) (walk : list (string * walkEntry)) (parentOption : GrepOption.t)
    : option (list GrepResult.t) :=
  match runWorkers fSys parentOption MAX_OPEN_FILE_DESCRIPTORS walk with
  | None => None
  | Some received => Some (collate received)
  end.

(** ** Option updates used in the statements *)

(** [option] with other context counts. *)
Definition withContext (opt : GrepOption.t) (before after : Z) : GrepOption.t :=
  GrepOption.mk (GrepOption.OrigPath opt) (GrepOption.Path opt) (GrepOption.Stdin opt)
    (GrepOption.Keyword opt) (GrepOption.IgnoreCase opt) before after
    (GrepOption.SearchDir opt) (GrepOption.LineCount opt).

(** [option] with the count-mode flag set to [lc]. *)
Definition withLineCount (opt : GrepOption.t) (lc : bool) : GrepOption.t :=
  GrepOption.mk (GrepOption.OrigPath opt) (GrepOption.Path opt) (GrepOption.Stdin opt)
    (GrepOption.Keyword opt) (GrepOption.IgnoreCase opt) (GrepOption.LinesBeforeMatch opt)
    (GrepOption.LinesAfterMatch opt) (GrepOption.SearchDir opt) lc.

(** An option reading from a given stream (no path), as in the stdin case. *)
Definition stdinOption (keyword : string) (ignoreCase : bool) (before after : Z)
    (lineCount : bool) (r : stream) : GrepOption.t :=
  GrepOption.mk EmptyString EmptyString r keyword ignoreCase before after false lineCount.

(** ** Inputs used in the statements about [GrepR] *)

(** [n] files [d/0], [d/1], ... with permission bits [0o000], each holding
    the line "hit". *)
Definition unreadableFiles (n : nat) : FS :=
  map (fun i => (("d/" ++ NilZero.string_of_uint (Nat.to_uint i))%string,
                 File 0 None (textReader "hit"))) (seq 0 n).

(** The visitor calls of a walk over the directory [d] and the files [fs]. *)
Definition walkOf (fs : FS) : list (string * walkEntry) :=
  ("d"%string, WalkEntry true) :: map (fun e => (fst e, WalkEntry false)) fs.

(** ** The open-file limiter of [GrepR], as a transition system

    The state is the shared counter [openFileLimit] and the phase of every
    goroutine started so far. The steps are those of the source: the walk
    starts a goroutine per visited entry; a goroutine for a walk error or a
    directory returns without a slot; a goroutine for a file waits on
    [cond] while [openFileLimit <= 0], then decrements it; [Grep] opens the
    file (or fails before opening it) and closes it on return; on success the
    goroutine increments the counter and signals, on error it returns without
    giving its slot back. *)
Module Limiter.

Inductive phase :=
| Spawned   (** started, not yet at the [cond.L.Lock()] *)
| Holding   (** decremented [openFileLimit]; [Grep] running, nothing open *)
| Opened    (** [fSys.Open] returned the file *)
| Closed    (** [Grep] returned, its deferred [cleanup] closed the file *)
| Released  (** incremented [openFileLimit] and signalled *)
| Leaked    (** returned on [result.Error != nil] without incrementing *)
| Skipped.  (** returned on [err != nil] or [d.IsDir()] *)

Record state := mk { openFileLimit : Z; workers : list phase }.

Inductive step : state -> state -> Prop :=
| go_visit l ws :
    step (mk l ws) (mk l (ws ++ [Spawned]))
| go_skip l pre post :
    step (mk l (pre ++ Spawned :: post)) (mk l (pre ++ Skipped :: post))
| go_acquire l pre post :
    l > 0 ->
    step (mk l (pre ++ Spawned :: post)) (mk (l - 1) (pre ++ Holding :: post))
| go_open l pre post :
    step (mk l (pre ++ Holding :: post)) (mk l (pre ++ Opened :: post))
| go_fail_before_open l pre post :
    step (mk l (pre ++ Holding :: post)) (mk l (pre ++ Closed :: post))
| go_close l pre post :
    step (mk l (pre ++ Opened :: post)) (mk l (pre ++ Closed :: post))
| go_release l pre post :
    step (mk l (pre ++ Closed :: post)) (mk (l + 1) (pre ++ Released :: post))
| go_leak l pre post :
    step (mk l (pre ++ Closed :: post)) (mk l (pre ++ Leaked :: post)).

Definition init : state := mk MAX_OPEN_FILE_DESCRIPTORS [].

Inductive reachable : state -> Prop :=
| reach_init : reachable init
| reach_step s s' : reachable s -> step s s' -> reachable s'.

(** A goroutine owns a slot from its decrement until its increment (a
    goroutine that returned on an error owns it for ever). *)
Definition ownsSlot (p : phase) : bool :=
  match p with Holding | Opened | Closed | Leaked => true | _ => false end.

Definition hasOpenFile (p : phase) : bool :=
  match p with Opened => true | _ => false end.

Definition countPh (f : phase -> bool) (ws : list phase) : nat := List.length (filter f ws).

End Limiter.

(** ** The caller: the output of [run] in [cmd/cmd.go]

    [run] builds the option, dispatches to [GrepR] or [Grep], and formats
    the results into [outputArr]; the joined text [strings.Join(outputArr, "")]
    is then printed to [input.output], or handed to [writeToFile] when an
    output file is named. Modelled here: the dispatch and that joined text.
    The path resolution before it ([getFullPath], via [filepath.Abs]) and
    [writeToFile] after it act on the host file system and are left out. *)

Definition nl : string := String (ascii_of_nat 10) EmptyString.

(** [fmt]'s [%d] of an [int]. *)
Definition itoa (z : Z) : string := NilZero.string_of_int (Z.to_int z).

(** The lines [run] appends to [outputArr] for one result. *)
Definition formatResult (searchDir lineCount : bool) (res : GrepResult.t) : list string :=
  if searchDir && lineCount then
    [(GrepResult.Path res ++ ":" ++ itoa (GrepResult.LineCount res) ++ nl)%string]
  else if searchDir && negb lineCount then
    map (fun line => (GrepResult.Path res ++ ":" ++ line ++ nl)%string) (GrepResult.MatchedLines res)
  else
    map (fun line => (line ++ nl)%string) (GrepResult.MatchedLines res).

(** What [run] does once the option [opt] is built: [inl e] when [Grep]
    returns the error [e] (which [run] prints before returning), otherwise
    [inr] of the joined [outputArr], the text [run] prints or writes to the
    output file ([None]: a panic, or a [GrepR] that never returns). *)
Definition runOutput (fSys : FS) (walk : list (string * walkEntry)) (opt : GrepOption.t)
    : option (grep_error + string) :=
  let result :=
    if GrepOption.SearchDir opt then
      match GrepR fSys walk opt with
      | None => None
      | Some result => Some (inr result)
      end
    else
      match snd (Grep fSys opt) with
      | None => None
      | Some grepResult =>
          match GrepResult.Error grepResult with
          | Some e => Some (inl e)
          | None => Some (inr [grepResult])
          end
      end in
  match result with
  | None => None
  | Some (inl e) => Some (inl e)
  | Some (inr result) =>
      Some (inr (String.concat EmptyString
              (flat_map (formatResult (GrepOption.SearchDir opt) (GrepOption.LineCount opt)) result)))
  end.

(** ** Specifications used in the statements *)

(** The before-context output, as a list: each line whose normalised form
    contains the keyword, preceded by the (at most [k]) lines before it. *)
Fixpoint beforeContextSpec (k : nat) (matches : string -> bool)
    (prior toks : list string) : list string :=
  match toks with
  | [] => []
  | t :: rest =>
      (if matches t then skipn (List.length prior - k) prior ++ [t] else [])
      ++ beforeContextSpec k matches (prior ++ [t]) rest
  end.

(** Every regular file of the walk is searched without error. *)
Definition fileGrepsOk (fSys : FS) (opt : GrepOption.t) (walk : list (string * walkEntry)) : Prop :=
  forall p, In (p, WalkEntry false) walk ->
  exists r, snd (Grep fSys (childOption opt p)) = Some r /\ GrepResult.Error r = None.

(** * Proofs *)

(** ** The context buffer *)

Lemma Push_spec (b : grepBuffer) (x : string) :
  0 < size b -> (List.length (buff b) <= Z.to_nat (size b))%nat ->
  Push b x = Some (mkGrepBuffer
    (skipn (List.length (buff b) + 1 - Z.to_nat (size b)) (buff b ++ [x])) (size b)).
Proof.
  intros Hk Hlen. unfold Push.
  destruct (Z.eqb_spec (size b) 0) as [E|_]; [lia|].
  destruct (Z.eqb_spec (Z.of_nat (List.length (buff b))) (size b)) as [E|E].
  - destruct (buff b) as [|y ys] eqn:Hb; [simpl in E; lia|].
    replace (List.length (y :: ys) + 1 - Z.to_nat (size b))%nat with 1%nat by lia.
    reflexivity.
  - replace (List.length (buff b) + 1 - Z.to_nat (size b))%nat with 0%nat by lia.
    reflexivity.
Qed.

Lemma skipn_app_le {A} (d : nat) (l1 l2 : list A) :
  (d <= List.length l1)%nat -> skipn d l1 ++ l2 = skipn d (l1 ++ l2).
Proof.
  intros H. rewrite skipn_app. replace (d - List.length l1)%nat with 0%nat by lia.
  reflexivity.
Qed.

Lemma pushAll_spec (b : grepBuffer) (xs : list string) :
  0 < size b -> (List.length (buff b) <= Z.to_nat (size b))%nat ->
  pushAll b xs = Some (mkGrepBuffer
    (skipn (List.length (buff b ++ xs) - Z.to_nat (size b)) (buff b ++ xs)) (size b)).
Proof.
  revert b. induction xs as [|x xs IH]; intros [l k] Hk Hlen; simpl in *.
  - rewrite app_nil_r. replace (List.length l - Z.to_nat k)%nat with 0%nat by lia.
    reflexivity.
  - rewrite (Push_spec (mkGrepBuffer l k) x Hk Hlen). simpl.
    rewrite IH; simpl; [| exact Hk | rewrite length_skipn, length_app; simpl; lia].
    rewrite skipn_app_le by (rewrite length_app; simpl; lia).
    rewrite skipn_skipn, <- app_assoc. simpl.
    rewrite !length_app, length_skipn, length_app. simpl.
    do 3 f_equal. lia.
Qed.

(** Whatever the buffer holds and whatever is pushed, [Push] never panics
    and [Dump] is total. *)
Lemma Push_total (b : grepBuffer) (x : string) : Push b x <> None.
Proof.
  unfold Push.
  destruct (size b =? 0) eqn:H0; [discriminate|].
  destruct (Z.eqb_spec (Z.of_nat (List.length (buff b))) (size b)) as [E|E].
  - destruct (buff b) as [|y ys]; simpl in E |- *; [|discriminate].
    apply Z.eqb_neq in H0. lia.
  - discriminate.
Qed.

Lemma pushAll_total (b : grepBuffer) (xs : list string) : pushAll b xs <> None.
Proof.
  revert b. induction xs as [|x xs IH]; intros b; simpl; [discriminate|].
  destruct (Push b x) as [b'|] eqn:E; [apply IH|].
  exfalso. exact (Push_total b x E).
Qed.

(** [C6] For every capacity [k > 0] and every sequence [xs] of [m] pushes
    into [NewGrepBuffer k]: after every prefix of the pushes the buffer holds
    at most [k] lines, and after all of them [Dump] returns the last
    [min(m, k)] pushed lines, in insertion order (the oldest evicted first). *)
Theorem grepBuffer_keeps_last_k (k : Z) (xs : list string) :
  0 < k ->
  (forall pre suf, xs = pre ++ suf ->
     exists b, pushAll (NewGrepBuffer k) pre = Some b
               /\ (List.length (buff b) <= Z.to_nat k)%nat) /\
  exists b, pushAll (NewGrepBuffer k) xs = Some b
            /\ Dump b = skipn (List.length xs - Z.to_nat k) xs
            /\ List.length (Dump b) = Nat.min (List.length xs) (Z.to_nat k).
Proof.
  intros Hk.
  assert (Hnew : NewGrepBuffer k = mkGrepBuffer [] k).
  { unfold NewGrepBuffer. destruct (Z.eqb_spec k 0); [lia|reflexivity]. }
  rewrite Hnew. split.
  - intros pre suf _.
    rewrite (pushAll_spec (mkGrepBuffer [] k) pre) by (simpl; lia).
    eexists; split; [reflexivity|]. simpl.
    rewrite length_skipn. lia.
  - rewrite (pushAll_spec (mkGrepBuffer [] k) xs) by (simpl; lia).
    eexists; split; [reflexivity|]. simpl. split; [reflexivity|].
    rewrite length_skipn. lia.
Qed.

(** [C9] A buffer of capacity 0 stores nothing: each [Push] leaves it
    unchanged, so after any sequence of pushes it is still the fresh buffer
    and [Dump] returns the empty sequence; and [Push] never panics, on any
    buffer and any line. *)
Theorem grepBuffer_zero_stores_nothing :
  (forall x, Push (NewGrepBuffer 0) x = Some (NewGrepBuffer 0)) /\
  (forall xs, pushAll (NewGrepBuffer 0) xs = Some (NewGrepBuffer 0)
              /\ Dump (NewGrepBuffer 0) = []) /\
  (forall b x, Push b x <> None) /\
  (forall b xs, pushAll b xs <> None).
Proof.
  split; [reflexivity|]. split; [|split; [exact Push_total | exact pushAll_total]].
  intros xs. split; [|reflexivity].
  induction xs as [|x xs IH]; [reflexivity|]. simpl. exact IH.
Qed.

(** ** [searchString] *)



(** The loop only reads the case flag, the two context guards, the after
    count when its guard holds, and the buffer when the before guard holds. *)
Lemma scanLoop_ext (lower : string -> string) (opt1 opt2 : GrepOption.t) (kw : string) (toks : list string) :
  forall buf1 buf2 c r,
  GrepOption.IgnoreCase opt1 = GrepOption.IgnoreCase opt2 ->
  (GrepOption.LinesBeforeMatch opt1 >? 0) = (GrepOption.LinesBeforeMatch opt2 >? 0) ->
  (forall c, (if GrepOption.LinesAfterMatch opt1 >? 0 then c + GrepOption.LinesAfterMatch opt1 else c)
           = (if GrepOption.LinesAfterMatch opt2 >? 0 then c + GrepOption.LinesAfterMatch opt2 else c)) ->
  ((GrepOption.LinesBeforeMatch opt1 >? 0) = true -> buf1 = buf2) ->
  scanLoop lower opt1 kw buf1 c r toks = scanLoop lower opt2 kw buf2 c r toks.
Proof.
  induction toks as [|t toks IH]; intros buf1 buf2 c r Hic Hb Ha Hbuf; [reflexivity|].
  cbn [scanLoop]. rewrite Hic, <- Hb.
  destruct (c >? 0); destruct (contains _ kw); cbn beta iota; rewrite ?Ha;
  destruct (GrepOption.LinesBeforeMatch opt1 >? 0) eqn:Eb;
  try (rewrite (Hbuf eq_refl); destruct (Push buf2 t); [apply IH|]; auto);
  apply IH; auto; discriminate.
Qed.

Lemma scanLoop_total (lower : string -> string) (opt : GrepOption.t) (kw : string) (toks : list string) :
  forall buf c r, scanLoop lower opt kw buf c r toks <> None.
Proof.
  induction toks as [|t toks IH]; intros buf c r; cbn [scanLoop]; [discriminate|].
  destruct (c >? 0); destruct (contains _ kw); cbn beta iota;
  destruct (GrepOption.LinesBeforeMatch opt >? 0); try apply IH;
  destruct (Push buf t) eqn:E; try apply IH; exfalso; exact (Push_total _ _ E).
Qed.

Lemma searchStringWith_total (lower : string -> string) (r : stream) (opt : GrepOption.t) :
  searchStringWith lower r opt <> None.
Proof.
  unfold searchStringWith.
  destruct (scanLoop _ _ _ _ _ _ _) eqn:E; [destruct (scanErr r); discriminate|].
  exfalso. exact (scanLoop_total _ _ _ _ _ _ _ E).
Qed.

Lemma searchString_total (r : stream) (opt : GrepOption.t) : searchString r opt <> None.
Proof. apply searchStringWith_total. Qed.

(** Without context, the loop keeps exactly the matching lines, raw. *)
Lemma scanLoop_no_context (lower : string -> string) (opt : GrepOption.t) (kw : string) (toks : list string) :
  forall buf r,
  GrepOption.LinesBeforeMatch opt <= 0 -> GrepOption.LinesAfterMatch opt <= 0 ->
  scanLoop lower opt kw buf 0 r toks =
  Some (r ++ filter (fun t => contains (if GrepOption.IgnoreCase opt then lower t else t) kw) toks).
Proof.
  intros buf r Hb Ha. revert buf r.
  induction toks as [|t toks IH]; intros buf r; cbn [scanLoop filter].
  - rewrite app_nil_r. reflexivity.
  - replace (GrepOption.LinesBeforeMatch opt >? 0) with false by lia.
    replace (GrepOption.LinesAfterMatch opt >? 0) with false by lia.
    cbn [Z.gtb Z.compare].
    destruct (contains _ kw); cbn beta iota; rewrite IH.
    + rewrite <- app_assoc. reflexivity.
    + reflexivity.
Qed.

Lemma Push_incl (b b' : grepBuffer) (x : string) :
  Push b x = Some b' -> incl (buff b') (x :: buff b).
Proof.
  unfold Push. intros H.
  destruct (size b =? 0); [injection H as <-; apply incl_tl, incl_refl|].
  destruct (Z.of_nat (List.length (buff b)) =? size b).
  - destruct (buff b) as [|y ys]; simpl in H; [discriminate|].
    injection H as <-. simpl. intros z Hz. apply in_app_iff in Hz.
    destruct Hz as [Hz|[<-|[]]]; simpl; auto.
  - injection H as <-. simpl. intros z Hz. apply in_app_iff in Hz.
    destruct Hz as [Hz|[<-|[]]]; simpl; auto.
Qed.

Ltac incl_solve :=
  let y := fresh "y" in let Hy := fresh "Hy" in
  intros y Hy; repeat rewrite in_app_iff in Hy; simpl in Hy;
  repeat match goal with H : _ \/ _ |- _ => destruct H end;
  subst; auto with datatypes; try contradiction.

(** Every line the loop emits is a line of the input or of the buffer. *)
Lemma scanLoop_incl (lower : string -> string) (opt : GrepOption.t) (kw : string) (S : list string) (toks : list string) :
  forall buf c r out,
  incl toks S -> incl r S -> incl (buff buf) S ->
  scanLoop lower opt kw buf c r toks = Some out -> incl out S.
Proof.
  induction toks as [|t toks IH]; intros buf c r out Ht Hr Hbuf Hrun; cbn [scanLoop] in Hrun.
  - injection Hrun as <-. exact Hr.
  - unfold incl in *.
    destruct (c >? 0); destruct (contains _ kw); cbn beta iota in Hrun;
    destruct (GrepOption.LinesBeforeMatch opt >? 0);
    try (destruct (Push buf t) as [b'|] eqn:E; [|discriminate]);
    (eapply IH; [ | | | exact Hrun]);
    try (intros z Hz; apply (Push_incl _ _ _ E) in Hz; destruct Hz as [<-|Hz]; auto with datatypes);
    unfold Dump; incl_solve.
Qed.

(** ** [Grep] *)

(** [getReader] does not read the count-mode flag. *)
Lemma getReader_withLineCount (fSys : FS) (opt : GrepOption.t) (lc : bool) :
  getReader fSys (withLineCount opt lc) = getReader fSys opt.
Proof. destruct opt; reflexivity. Qed.

Lemma searchString_withLineCount (r : stream) (opt : GrepOption.t) (lc : bool) :
  searchString r (withLineCount opt lc) = searchString r opt.
Proof.
  unfold searchString, searchStringWith.
  rewrite (scanLoop_ext ToLower (withLineCount opt lc) opt _ _
             (NewGrepBuffer (GrepOption.LinesBeforeMatch opt))
             (NewGrepBuffer (GrepOption.LinesBeforeMatch opt)));
    destruct opt; reflexivity.
Qed.



(** [C7] Whatever function [strings.ToLower] is taken to be ([lower]),
    every line [searchString] returns is a raw line of the input (never a
    lower-cased copy); without context, the result is the raw lines whose
    normalised form (lowered when the case flag is set) contains the
    normalised keyword; and, with Go's [strings.ToLower] ([GoToLower], for
    any Unicode case mapping of non-ASCII text), on the lines ["this", "is",
    "a", "file", "Is"] with keyword ["is"] the result is [["this"; "is"]]
    with the case flag off and [["this"; "is"; "Is"]] with it on. *)
Theorem searchString_case_insensitive_raw_lines :
  (forall lower r opt, exists out err,
     searchStringWith lower r opt = Some (out, err) /\ incl out (tokens r)) /\
  (forall lower r opt,
     searchStringWith lower r (withContext opt 0 0) =
     Some (match scanErr r with
           | Some _ => []
           | None =>
               let norm s := if GrepOption.IgnoreCase opt then lower s else s in
               filter (fun t => contains (norm t) (norm (GrepOption.Keyword opt))) (tokens r)
           end, scanErr r)) /\
  (forall runeLower : string -> string,
     searchStringWith (GoToLower runeLower) (textReader "this
is
a
file
Is") (stdinOption "is" false 0 0 false (mkStream [] None)) = Some (["this"; "is"]%string, None) /\
     searchStringWith (GoToLower runeLower) (textReader "this
is
a
file
Is") (stdinOption "is" true 0 0 false (mkStream [] None)) = Some (["this"; "is"; "Is"]%string, None)).
Proof.
  split; [|split; [|intros runeLower; split; reflexivity]].
  - intros lower r opt. unfold searchStringWith.
    destruct (scanLoop _ _ _ _ _ _ _) as [out|] eqn:E.
    + destruct (scanErr r) as [e|].
      * exists [], (Some e). split; [reflexivity|]. intros y [].
      * exists out, None. split; [reflexivity|].
        refine (scanLoop_incl _ _ _ (tokens r) _ _ _ _ _ (incl_refl _) _ _ E);
          [intros y [] | unfold NewGrepBuffer; destruct (_ =? 0); intros y []].
    + exfalso. exact (scanLoop_total _ _ _ _ _ _ _ E).
  - intros lower r opt. unfold searchStringWith.
    rewrite scanLoop_no_context by (cbn; lia). cbn.
    destruct (scanErr r); [reflexivity|].
    destruct (GrepOption.IgnoreCase opt); reflexivity.
Qed.


(** [Grep] never panics. *)
Lemma Grep_total (fSys : FS) (opt : GrepOption.t) : snd (Grep fSys opt) <> None.
Proof.
  unfold Grep. destruct (getReader fSys opt) as [tr [[r h]|e]]; [|discriminate].
  destruct (searchString r opt) as [[res [e|]]|] eqn:E.
  - discriminate.
  - destruct (GrepOption.LineCount opt); discriminate.
  - exfalso. exact (searchString_total r opt E).
Qed.

(** [C1] (as amended) For every file system and option, count-mode [Grep]
    performs the same file operations as line-mode [Grep] with the same
    settings, fails with the same error, and its count is the number of
    lines line-mode returns with the same before/after settings, context
    lines included. *)
Theorem Grep_count_is_output_length (fSys : FS) (opt : GrepOption.t) :
  fst (Grep fSys (withLineCount opt true)) = fst (Grep fSys (withLineCount opt false)) /\
  match snd (Grep fSys (withLineCount opt true)), snd (Grep fSys (withLineCount opt false)) with
  | Some rc, Some rl =>
      GrepResult.Error rc = GrepResult.Error rl /\
      GrepResult.LineCount rc = Z.of_nat (List.length (GrepResult.MatchedLines rl))
  | _, _ => False
  end.
Proof.
  unfold Grep. rewrite !getReader_withLineCount.
  destruct (getReader fSys opt) as [tr [[r h]|e]]; [|split; [reflexivity|split; reflexivity]].
  rewrite !searchString_withLineCount.
  destruct (searchString r opt) as [[res [e|]]|] eqn:E.
  - split; [reflexivity|split; reflexivity].
  - cbn. split; [reflexivity|split; reflexivity].
  - exfalso. exact (searchString_total r opt E).
Qed.

(** [C1] counterexample: on the input lines ["m", "x"] with keyword ["m"] and
    one line of after-context, count-mode returns 2, while line-mode with
    zero context returns the single line ["m"]. *)
Lemma Grep_count_includes_context :
  match snd (Grep [] (stdinOption "m" false 0 1 true (textReader "m
x"))),
        snd (Grep [] (stdinOption "m" false 0 0 false (textReader "m
x"))) with
  | Some rc, Some rl =>
      GrepResult.LineCount rc = 2 /\ GrepResult.MatchedLines rl = ["m"%string] /\
      GrepResult.LineCount rc <> Z.of_nat (List.length (GrepResult.MatchedLines rl))
  | _, _ => False
  end.
Proof. vm_compute. split; [reflexivity|split; [reflexivity|discriminate]]. Qed.

(** [C2] evaluated at the input lines ["m", "m", "x", "y", "z"], keyword
    ["m"], two lines of after-context: the second match adds 2 to the
    counter left at 1 by the first, so the three lines "x", "y", "z" follow
    the last match (the second "m" also appears once as after-context of the
    first). *)
Theorem searchString_after_counter_accumulates :
  searchString (textReader "m
m
x
y
z") (stdinOption "m" false 0 2 false (mkStream [] None))
  = Some (["m"; "m"; "m"; "x"; "y"; "z"]%string, None).
Proof. reflexivity. Qed.

(** [C8] For every non-empty target path that names a directory, [Grep]
    fails with [ErrIsDirectory] (with the user-supplied path) from
    [isValid], and its only file operation is the [Stat] of the path: the
    directory is never opened or read. *)
Theorem Grep_directory_never_opened (fSys : FS) (opt : GrepOption.t) :
  GrepOption.Path opt <> EmptyString ->
  lookup fSys (GrepOption.Path opt) = Some Dir ->
  isValid fSys opt = ([OpStat (GrepOption.Path opt)],
                      Some (ErrIsDirectory (GrepOption.OrigPath opt))) /\
  Grep fSys opt = ([OpStat (GrepOption.Path opt)],
                   Some (GrepResult.ofError (ErrIsDirectory (GrepOption.OrigPath opt)))).
Proof.
  intros Hp Hdir.
  assert (Hv : isValid fSys opt = ([OpStat (GrepOption.Path opt)],
                                   Some (ErrIsDirectory (GrepOption.OrigPath opt)))).
  { unfold isValid. rewrite Hdir. reflexivity. }
  split; [exact Hv|].
  unfold Grep, getReader.
  destruct (String.eqb_spec (GrepOption.Path opt) EmptyString) as [E|_]; [contradiction|].
  cbn [negb]. rewrite Hv. reflexivity.
Qed.

(** [C4] evaluated at a file whose permission bits are [0o200] (owner may
    write, not read): [isValid] accepts it ([0o200 & 400 = 128], the
    constant [400] being decimal, i.e. [0o620]), and [Grep] goes on to open
    and read it. *)
Theorem isValid_accepts_owner_unreadable :
  let fSys := [("f.txt"%string, File 128 None (textReader "secret"))] in
  let opt := GrepOption.mk "f.txt" "f.txt" (mkStream [] None) "secret" false 0 0 false false in
  isValid fSys opt = ([OpStat "f.txt"%string], None) /\
  Grep fSys opt = ([OpStat "f.txt"; OpOpen "f.txt"; OpRead "f.txt"; OpClose "f.txt"]%string,
                   Some (GrepResult.mk "f.txt" ["secret"%string] 0 None)).
Proof. split; reflexivity. Qed.

(** [C3] evaluated at a tree [d] holding an unreadable file [d/a.txt] (mode
    [0o000]) and a matching file [d/b.txt]: the goroutine of [d/a.txt] sends
    the permission error (and keeps its slot), but the collector drops every
    received result with no lines and a zero count, so the error is not in
    the result of [GrepR]. And since an erroring goroutine never gives its
    slot back, once 1024 unreadable files hold every slot, the goroutine of
    the next file waits for ever, and the collector with it: with 1025
    unreadable files before the matching [d/b.txt], [GrepR] returns nothing
    ([None]), not even the result of [d/b.txt]. *)
Theorem GrepR_drops_file_errors :
  let fSys := [("d"%string, Dir); ("d/a.txt"%string, File 0 None (textReader "hit"));
               ("d/b.txt"%string, File 420 None (textReader "hit"))] in
  let walk := [("d"%string, WalkEntry true); ("d/a.txt"%string, WalkEntry false);
               ("d/b.txt"%string, WalkEntry false)] in
  let parentOption := GrepOption.mk "d" "d" (mkStream [] None) "hit" false 0 0 true false in
  worker fSys parentOption MAX_OPEN_FILE_DESCRIPTORS "d/a.txt" (WalkEntry false)
    = Some (GrepResult.ofError (ErrPermission "d/a.txt"), MAX_OPEN_FILE_DESCRIPTORS - 1) /\
  GrepR fSys walk parentOption = Some [GrepResult.mk "d/b.txt" ["hit"%string] 0 None] /\
  let bFile := ("d/b.txt"%string, File 420 None (textReader "hit")) in
  GrepR (bFile :: unreadableFiles 1025) (walkOf (unreadableFiles 1025 ++ [bFile])) parentOption
    = None.
Proof. split; [|split]; vm_compute; reflexivity. Qed.

(** ** The limiter *)

Section LimiterProofs.
Import Limiter.

Lemma countPh_mid (f : phase -> bool) (pre post : list phase) (p : phase) :
  countPh f (pre ++ p :: post) = (countPh f pre + (if f p then 1 else 0) + countPh f post)%nat.
Proof.
  unfold countPh. rewrite filter_app, length_app. simpl.
  destruct (f p); simpl; lia.
Qed.

Definition limiterInv (s : state) : Prop :=
  0 <= openFileLimit s /\
  openFileLimit s + Z.of_nat (countPh ownsSlot (workers s)) = MAX_OPEN_FILE_DESCRIPTORS.

(** A goroutine holds an open file only while it owns a slot. *)
Lemma countPh_open_le_owns (ws : list phase) :
  (countPh hasOpenFile ws <= countPh ownsSlot ws)%nat.
Proof.
  unfold countPh. induction ws as [|p ws IH]; [reflexivity|].
  destruct p; simpl; lia.
Qed.

Lemma limiterInv_step (s s' : state) : limiterInv s -> step s s' -> limiterInv s'.
Proof.
  unfold limiterInv. intros Hinv Hstep.
  destruct Hstep; cbn [openFileLimit workers] in *;
    rewrite ?countPh_mid in *; cbn [ownsSlot hasOpenFile] in *;
    cbn [countPh filter List.length] in *; lia.
Qed.

Lemma limiterInv_reachable (s : state) : reachable s -> limiterInv s.
Proof.
  induction 1 as [|s s' _ IH Hstep].
  - unfold limiterInv, init, MAX_OPEN_FILE_DESCRIPTORS. simpl. lia.
  - exact (limiterInv_step s s' IH Hstep).
Qed.

End LimiterProofs.

(** [C5] In every reachable state of the limiter, the goroutines owning a
    slot number at most [MAX_OPEN_FILE_DESCRIPTORS] (1024), the counter is
    never negative, and the files open at once are at most the goroutines
    owning a slot. *)
Theorem limiter_bounds_open_files (s : Limiter.state) :
  Limiter.reachable s ->
  0 <= Limiter.openFileLimit s /\
  (Limiter.countPh Limiter.hasOpenFile (Limiter.workers s)
     <= Limiter.countPh Limiter.ownsSlot (Limiter.workers s))%nat /\
  Z.of_nat (Limiter.countPh Limiter.ownsSlot (Limiter.workers s)) <= MAX_OPEN_FILE_DESCRIPTORS.
Proof.
  intros Hr. destruct (limiterInv_reachable s Hr) as (H0 & Hsum).
  split; [exact H0|]. split; [apply countPh_open_le_owns|]. lia.
Qed.

(** ** Witnesses *)

Lemma grepBuffer_keeps_last_k_witness :
  0 < 2 /\
  ((forall pre suf, ["a"; "b"; "c"]%string = pre ++ suf ->
      exists b, pushAll (NewGrepBuffer 2) pre = Some b
                /\ (List.length (buff b) <= Z.to_nat 2)%nat) /\
   exists b, pushAll (NewGrepBuffer 2) ["a"; "b"; "c"]%string = Some b
             /\ Dump b = skipn (List.length ["a"; "b"; "c"]%string - Z.to_nat 2) ["a"; "b"; "c"]%string
             /\ List.length (Dump b) = Nat.min (List.length ["a"; "b"; "c"]%string) (Z.to_nat 2)).
Proof. split; [lia | apply (grepBuffer_keeps_last_k 2 ["a"; "b"; "c"]%string); lia]. Defined.

Lemma Grep_directory_never_opened_witness :
  let fSys := [("dir"%string, Dir)] in
  let opt := GrepOption.mk "dir" "dir" (mkStream [] None) "x" false 0 0 false false in
  GrepOption.Path opt <> EmptyString /\
  lookup fSys (GrepOption.Path opt) = Some Dir /\
  (isValid fSys opt = ([OpStat (GrepOption.Path opt)],
                       Some (ErrIsDirectory (GrepOption.OrigPath opt))) /\
   Grep fSys opt = ([OpStat (GrepOption.Path opt)],
                    Some (GrepResult.ofError (ErrIsDirectory (GrepOption.OrigPath opt))))).
Proof.
  intros fSys opt. split; [discriminate|]. split; [reflexivity|].
  apply (Grep_directory_never_opened fSys opt); [discriminate | reflexivity].
Defined.

Lemma limiter_bounds_open_files_witness :
  Limiter.reachable (Limiter.mk 1023 [Limiter.Opened]) /\
  0 <= Limiter.openFileLimit (Limiter.mk 1023 [Limiter.Opened]) /\
  (Limiter.countPh Limiter.hasOpenFile [Limiter.Opened]
     <= Limiter.countPh Limiter.ownsSlot [Limiter.Opened])%nat /\
  Z.of_nat (Limiter.countPh Limiter.ownsSlot [Limiter.Opened]) <= MAX_OPEN_FILE_DESCRIPTORS.
Proof.
  assert (H : Limiter.reachable (Limiter.mk 1023 [Limiter.Opened])).
  { apply (Limiter.reach_step (Limiter.mk 1023 [Limiter.Holding]));
      [| exact (Limiter.go_open 1023 [] [])].
    apply (Limiter.reach_step (Limiter.mk 1024 [Limiter.Spawned]));
      [| exact (Limiter.go_acquire 1024 [] [] eq_refl)].
    exact (Limiter.reach_step Limiter.init _ Limiter.reach_init (Limiter.go_visit 1024 [])). }
  split; [exact H | exact (limiter_bounds_open_files _ H)].
Defined.

(** ** More of [grep.go]: path rewriting, validation, [Grep]'s file
    operations *)

Lemma hasPrefix_nil (s : string) : hasPrefix s EmptyString = true.
Proof. destruct s; reflexivity. Qed.

Lemma hasPrefix_app (p r : string) : hasPrefix (p ++ r) p = true.
Proof. induction p as [|c p IH]; [apply hasPrefix_nil|]. simpl. rewrite Ascii.eqb_refl. exact IH. Qed.

Lemma Index_prefix (s p : string) : hasPrefix s p = true -> Index s p = 0.
Proof. destruct s; simpl; intros H; rewrite H; reflexivity. Qed.

Lemma dropPrefix_app (p r : string) : dropPrefix (p ++ r) p = r.
Proof. induction p as [|c p IH]; [destruct r; reflexivity|]. simpl. exact IH. Qed.

Lemma substring_all (s : string) : substring 0 (String.length s) s = s.
Proof. induction s as [|c s IH]; [reflexivity|]. simpl. rewrite IH. reflexivity. Qed.

Lemma substring_after_prefix (p r : string) :
  substring (String.length p) (String.length (p ++ r) - String.length p) (p ++ r) = r.
Proof.
  induction p as [|c p IH]; simpl.
  - rewrite Nat.sub_0_r. apply substring_all.
  - exact IH.
Qed.

Lemma length_append (p r : string) :
  String.length (p ++ r) = (String.length p + String.length r)%nat.
Proof. induction p as [|c p IH]; simpl; [reflexivity|]. rewrite IH. reflexivity. Qed.

Lemma sliceStringFrom_prefix (p r : string) :
  sliceStringFrom (p ++ r) (Z.of_nat (String.length p)) = Some r.
Proof.
  unfold sliceStringFrom. rewrite length_append.
  replace ((Z.of_nat (String.length p) <? 0) || (Z.of_nat (String.length p + String.length r) <? Z.of_nat (String.length p)))
    with false by (symmetry; apply orb_false_iff; split; apply Z.ltb_ge; lia).
  rewrite Nat2Z.id, <- length_append. f_equal. apply substring_after_prefix.
Qed.

(** [X1] When the walked path starts with the user-supplied root path (one
    that does not start with ["../"]), [normalisePathFromRoot] returns the
    walked path unchanged. *)
Theorem normalisePathFromRoot_plain (dirPath rest : string) :
  hasPrefix dirPath "../" = false ->
  normalisePathFromRoot (dirPath ++ rest) dirPath = Some (dirPath ++ rest)%string.
Proof.
  intros H. unfold normalisePathFromRoot, TrimPrefix. rewrite H.
  assert (Hi : Index (dirPath ++ rest) dirPath = 0).
  { apply Index_prefix, hasPrefix_app. }
  rewrite Hi, Z.add_0_l, sliceStringFrom_prefix. reflexivity.
Qed.

(** [X2] When the user-supplied root is ["../" ++ d] and the walked path is
    [d ++ rest], [normalisePathFromRoot] returns ["../" ++ d ++ rest]: the
    parent-relative prefix is spliced back. *)
Theorem normalisePathFromRoot_parent (d rest : string) :
  normalisePathFromRoot (d ++ rest) ("../" ++ d) = Some ("../" ++ d ++ rest)%string.
Proof.
  unfold normalisePathFromRoot, TrimPrefix.
  rewrite hasPrefix_app, dropPrefix_app.
  assert (Hi : Index (d ++ rest) d = 0).
  { apply Index_prefix, hasPrefix_app. }
  rewrite Hi, Z.add_0_l, sliceStringFrom_prefix. reflexivity.
Qed.

Lemma land_400_zero (m : Z) :
  Z.land (Perm m) 400 = 0 <-> (Z.testbit m 8 || Z.testbit m 7 || Z.testbit m 4) = false.
Proof.
  unfold Perm. rewrite <- Z.land_assoc. change (Z.land 511 400) with 400.
  split.
  - intros H.
    assert (H8 := f_equal (fun x => Z.testbit x 8) H).
    assert (H7 := f_equal (fun x => Z.testbit x 7) H).
    assert (H4 := f_equal (fun x => Z.testbit x 4) H).
    cbv beta in H8, H7, H4. rewrite Z.land_spec, Z.bits_0 in H8, H7, H4.
    change (Z.testbit 400 8) with true in H8. change (Z.testbit 400 7) with true in H7.
    change (Z.testbit 400 4) with true in H4.
    rewrite andb_true_r in H8, H7, H4. rewrite H8, H7, H4. reflexivity.
  - intros H. apply orb_false_iff in H as [H H4]. apply orb_false_iff in H as [H8 H7].
    apply Z.bits_inj'. intros n Hn. rewrite Z.land_spec, Z.bits_0.
    destruct (Z.lt_ge_cases n 9) as [Hlt|Hge].
    + assert (n = 0 \/ n = 1 \/ n = 2 \/ n = 3 \/ n = 4 \/ n = 5 \/ n = 6 \/ n = 7 \/ n = 8)
        as Hc by lia.
      destruct Hc as [->|[->|[->|[->|[->|[->|[->|[->| ->]]]]]]]];
        rewrite ?H4, ?H7, ?H8; try reflexivity;
        match goal with |- context [Z.testbit m ?k] => destruct (Z.testbit m k) end;
        reflexivity.
    + rewrite (Z.bits_above_log2 400 n) by (simpl; lia). apply andb_false_r.
Qed.

(** [X3] [isValid] accepts a path exactly when it names a regular file one
    of whose permission bits [0o400], [0o200] or [0o020] is set (the bits of
    the decimal constant [400]); directories and missing paths are refused. *)
Theorem isValid_accepts_iff (fSys : FS) (opt : GrepOption.t) :
  snd (isValid fSys opt) = None <->
  exists mode oe r, lookup fSys (GrepOption.Path opt) = Some (File mode oe r) /\
                    (Z.testbit mode 8 || Z.testbit mode 7 || Z.testbit mode 4) = true.
Proof.
  unfold isValid. destruct (lookup fSys (GrepOption.Path opt)) as [[|mode oe r]|]; cbn [snd].
  - split; [discriminate|]. intros (? & ? & ? & H & _). discriminate.
  - destruct (Z.eqb_spec (Z.land (Perm mode) 400) 0) as [E|E]; cbn [snd].
    + split; [discriminate|]. intros (m & o & r' & H & Hb). injection H as <- <- <-.
      apply land_400_zero in E. congruence.
    + split; [intros _|reflexivity].
      exists mode, oe, r. split; [reflexivity|].
      destruct (Z.testbit mode 8 || Z.testbit mode 7 || Z.testbit mode 4) eqn:B; [reflexivity|].
      exfalso. apply E, land_400_zero, B.
  - split; [discriminate|]. intros (? & ? & ? & H & _). discriminate.
Qed.

Lemma contains_empty (s : string) : contains s EmptyString = true.
Proof. destruct s; reflexivity. Qed.

(** [X7] The empty keyword matches every line: without context,
    [searchString] returns every line of the input, in order. *)
Theorem searchString_empty_keyword (r : stream) (opt : GrepOption.t) :
  GrepOption.Keyword opt = EmptyString -> scanErr r = None ->
  searchString r (withContext opt 0 0) = Some (tokens r, None).
Proof.
  intros Hk He. unfold searchString, searchStringWith.
  rewrite scanLoop_no_context by (cbn; lia). cbn. rewrite He, Hk.
  f_equal. f_equal.
  destruct (GrepOption.IgnoreCase opt); cbn [ToLower];
    (induction (tokens r) as [|t ts IH]; [reflexivity|]);
    cbn [filter]; rewrite contains_empty; cbn; f_equal; exact IH.
Qed.

(** [X8] A buffer created with a negative size never evicts: every line
    pushed is kept (the guard [b.size == 0] lets it through and
    [len(b.buff) == b.size] never holds). *)
Theorem grepBuffer_negative_size_keeps_all (k : Z) (xs : list string) :
  k < 0 -> pushAll (NewGrepBuffer k) xs = Some (mkGrepBuffer xs k).
Proof.
  intros Hk.
  assert (Hnew : NewGrepBuffer k = mkGrepBuffer [] k).
  { unfold NewGrepBuffer. destruct (Z.eqb_spec k 0); [lia|reflexivity]. }
  rewrite Hnew. change xs with ([] ++ xs) at 2. generalize (@nil string) as l.
  induction xs as [|x xs IH]; intros l; simpl.
  - rewrite app_nil_r. reflexivity.
  - unfold Push. simpl.
    destruct (Z.eqb_spec k 0); [lia|].
    destruct (Z.eqb_spec (Z.of_nat (List.length l)) k); [lia|].
    rewrite IH, <- app_assoc. reflexivity.
Qed.

Lemma pushAll_app (b : grepBuffer) (xs ys : list string) :
  pushAll b (xs ++ ys) = match pushAll b xs with Some b' => pushAll b' ys | None => None end.
Proof.
  revert b. induction xs as [|x xs IH]; intros b; [reflexivity|]. simpl.
  destruct (Push b x); [apply IH|reflexivity].
Qed.

Lemma scanLoop_before (lower : string -> string) (opt : GrepOption.t) (kw : string) (toks : list string) :
  forall prior buf res,
  0 < GrepOption.LinesBeforeMatch opt -> GrepOption.LinesAfterMatch opt <= 0 ->
  pushAll (NewGrepBuffer (GrepOption.LinesBeforeMatch opt)) prior = Some buf ->
  scanLoop lower opt kw buf 0 res toks =
  Some (res ++ beforeContextSpec (Z.to_nat (GrepOption.LinesBeforeMatch opt))
                 (fun t => contains (if GrepOption.IgnoreCase opt then lower t else t) kw)
                 prior toks).
Proof.
  set (k := GrepOption.LinesBeforeMatch opt).
  induction toks as [|t toks IH]; intros prior buf res Hk Ha Hbuf.
  - simpl. rewrite app_nil_r. reflexivity.
  - assert (Hnew : NewGrepBuffer k = mkGrepBuffer [] k).
    { unfold NewGrepBuffer. destruct (Z.eqb_spec k 0); [lia|reflexivity]. }
    assert (Hdump : Dump buf = skipn (List.length prior - Z.to_nat k) prior).
    { rewrite Hnew, pushAll_spec in Hbuf by (simpl; lia). injection Hbuf as <-. reflexivity. }
    destruct (pushAll (NewGrepBuffer k) (prior ++ [t])) as [buf'|] eqn:Hbuf'.
    2:{ exfalso. exact (pushAll_total _ _ Hbuf'). }
    assert (Hpush : Push buf t = Some buf').
    { rewrite pushAll_app, Hbuf in Hbuf'. simpl in Hbuf'.
      destruct (Push buf t); [exact Hbuf'|discriminate]. }
    cbn [scanLoop beforeContextSpec]. fold k.
    replace (k >? 0) with true by lia.
    replace (GrepOption.LinesAfterMatch opt >? 0) with false by lia.
    cbn [Z.gtb Z.compare].
    destruct (contains _ kw); cbn beta iota; rewrite Hpush, (IH (prior ++ [t])) by assumption.
    + rewrite Hdump, !app_assoc. reflexivity.
    + reflexivity.
Qed.

(** [X9] Whatever function [strings.ToLower] is taken to be ([lower]): with
    before-context [k > 0] and no after-context, [searchString] returns, for
    each matching line in order, the (at most [k]) lines preceding it
    followed by the line itself; windows of nearby matches overlap and their
    common lines are repeated. *)
Theorem searchString_before_context (lower : string -> string) (r : stream) (opt : GrepOption.t) :
  0 < GrepOption.LinesBeforeMatch opt -> GrepOption.LinesAfterMatch opt <= 0 ->
  scanErr r = None ->
  let norm s := if GrepOption.IgnoreCase opt then lower s else s in
  searchStringWith lower r opt =
  Some (beforeContextSpec (Z.to_nat (GrepOption.LinesBeforeMatch opt))
          (fun t => contains (norm t) (norm (GrepOption.Keyword opt))) [] (tokens r), None).
Proof.
  intros Hk Ha He norm. unfold searchStringWith.
  rewrite (scanLoop_before lower opt _ (tokens r) [] _ [] Hk Ha eq_refl), He.
  subst norm. destruct (GrepOption.IgnoreCase opt); reflexivity.
Qed.

(** ** More of [GrepR] *)

(** [X11] A walk that visits no regular file (only directories and walk
    errors, e.g. an unreadable root) gives [GrepR] the empty result: walk
    errors are not reported. *)
Theorem GrepR_no_files (fSys : FS) (walk : list (string * walkEntry)) (opt : GrepOption.t) :
  (forall p w, In (p, w) walk -> w <> WalkEntry false) ->
  GrepR fSys walk opt = Some [].
Proof.
  intros Hw. unfold GrepR.
  assert (H : forall L, exists rs, runWorkers fSys opt L walk = Some rs /\ collate rs = []).
  { induction walk as [|[p w] walk IH]; intros L; [exists []; split; reflexivity|].
    destruct (IH (fun q v Hin => Hw q v (or_intror Hin)) L) as (rs & Hrs & Hc).
    cbn [runWorkers]. destruct w as [e|[|]].
    - exists (GrepResult.ofError e :: rs). cbn [worker]. rewrite Hrs. split; [reflexivity|exact Hc].
    - exists (GrepResult.zero :: rs). cbn [worker]. rewrite Hrs. split; [reflexivity|exact Hc].
    - exfalso. apply (Hw p (WalkEntry false)); [left; reflexivity|reflexivity]. }
  destruct (H MAX_OPEN_FILE_DESCRIPTORS) as (rs & -> & Hc). rewrite Hc. reflexivity.
Qed.

(** Without file errors, a goroutine gives back the slot it took. *)
Lemma worker_limit_irrelevant (fSys : FS) (opt : GrepOption.t) (L : Z) (p : string) (w : walkEntry) :
  0 < L ->
  (w = WalkEntry false ->
   exists r, snd (Grep fSys (childOption opt p)) = Some r /\ GrepResult.Error r = None) ->
  worker fSys opt L p w =
  match worker fSys opt 1 p w with Some (r, _) => Some (r, L) | None => None end.
Proof.
  intros HL Hok. destruct w as [e|[|]]; try reflexivity.
  destruct (Hok eq_refl) as (r & Hr & He). unfold worker.
  replace (L <=? 0) with false by lia. cbn [Z.leb Z.compare].
  rewrite Hr, He. replace (L - 1 + 1) with L by lia. cbn [Z.sub Z.add].
  destruct (_ && _); [reflexivity|].
  destruct (normalisePathFromRoot _ _); reflexivity.
Qed.

Lemma runWorkers_app (fSys : FS) (opt : GrepOption.t) (L : Z) (w1 w2 : list (string * walkEntry)) :
  0 < L -> fileGrepsOk fSys opt (w1 ++ w2) ->
  runWorkers fSys opt L (w1 ++ w2) =
  match runWorkers fSys opt L w1, runWorkers fSys opt L w2 with
  | Some a, Some b => Some (a ++ b)
  | _, _ => None
  end.
Proof.
  intros HL. induction w1 as [|[p w] w1 IH]; intros Hok.
  - simpl. destruct (runWorkers fSys opt L w2); reflexivity.
  - cbn [app runWorkers].
    rewrite (worker_limit_irrelevant fSys opt L p w HL).
    2:{ intros ->. apply Hok. left. reflexivity. }
    destruct (worker fSys opt 1 p w) as [[r _]|]; [|reflexivity].
    rewrite IH by (intros q Hq; apply Hok; right; exact Hq).
    destruct (runWorkers fSys opt L w1), (runWorkers fSys opt L w2); reflexivity.
Qed.

(** [X12] When no file search of the walk fails, [GrepR] over a walk split
    anywhere is the concatenation of [GrepR] over the two parts: outcomes
    come in discovery order and each file's outcome does not depend on the
    others. *)
Theorem GrepR_app (fSys : FS) (opt : GrepOption.t) (w1 w2 : list (string * walkEntry)) :
  fileGrepsOk fSys opt (w1 ++ w2) ->
  GrepR fSys (w1 ++ w2) opt =
  match GrepR fSys w1 opt, GrepR fSys w2 opt with
  | Some a, Some b => Some (a ++ b)
  | _, _ => None
  end.
Proof.
  intros Hok. unfold GrepR.
  rewrite (runWorkers_app fSys opt MAX_OPEN_FILE_DESCRIPTORS w1 w2) by
    (unfold MAX_OPEN_FILE_DESCRIPTORS; lia || exact Hok).
  destruct (runWorkers fSys opt MAX_OPEN_FILE_DESCRIPTORS w1),
           (runWorkers fSys opt MAX_OPEN_FILE_DESCRIPTORS w2); try reflexivity.
  unfold collate. rewrite filter_app. reflexivity.
Qed.

(** ** More of [run]'s output *)

Lemma Grep_count_mode_no_lines (fSys : FS) (opt : GrepOption.t) (r : GrepResult.t) :
  GrepOption.LineCount opt = true -> snd (Grep fSys opt) = Some r ->
  GrepResult.MatchedLines r = [].
Proof.
  intros Hc. unfold Grep. destruct (getReader fSys opt) as [tr [[rd h]|e]].
  - destruct (searchString rd opt) as [[res [e|]]|]; cbn [snd]; intros H; try discriminate;
      [injection H as <-; reflexivity|].
    rewrite Hc in H. injection H as <-. reflexivity.
  - intros H. injection H as <-. reflexivity.
Qed.

(** [X13] On a single target in count mode, [run] outputs no count: the
    text it prints, or writes to the output file, is empty whenever [Grep]
    succeeds (the single-target branch formats only [MatchedLines], which
    count mode leaves empty); otherwise [run] prints [Grep]'s error. *)
Theorem run_single_count_prints_nothing (fSys : FS) (walk : list (string * walkEntry))
    (opt : GrepOption.t) :
  GrepOption.SearchDir opt = false -> GrepOption.LineCount opt = true ->
  runOutput fSys walk opt = Some (inr EmptyString) \/
  exists e, runOutput fSys walk opt = Some (inl e).
Proof.
  intros Hd Hc. unfold runOutput. rewrite Hd.
  destruct (snd (Grep fSys opt)) as [r|] eqn:Hg.
  2:{ exfalso. exact (Grep_total fSys opt Hg). }
  destruct (GrepResult.Error r) as [e|]; [right; exists e; reflexivity|].
  left. rewrite Hc. cbn [flat_map formatResult andb negb].
  rewrite (Grep_count_mode_no_lines fSys opt r Hc Hg). reflexivity.
Qed.

(** ** Witnesses of the further properties *)

Lemma normalisePathFromRoot_plain_witness :
  hasPrefix "testdata" "../" = false /\
  normalisePathFromRoot ("testdata" ++ "/inner/test2.txt") "testdata"
    = Some ("testdata" ++ "/inner/test2.txt")%string.
Proof. split; [reflexivity | apply normalisePathFromRoot_plain; reflexivity]. Defined.

Lemma searchString_empty_keyword_witness :
  let opt := stdinOption EmptyString false 1 1 false (mkStream [] None) in
  GrepOption.Keyword opt = EmptyString /\ scanErr (textReader "a
b") = None /\
  searchString (textReader "a
b") (withContext opt 0 0) = Some (tokens (textReader "a
b"), None).
Proof.
  intros opt. split; [reflexivity|]. split; [reflexivity|].
  apply searchString_empty_keyword; reflexivity.
Defined.

Lemma grepBuffer_negative_size_keeps_all_witness :
  -1 < 0 /\ pushAll (NewGrepBuffer (-1)) ["a"; "b"]%string = Some (mkGrepBuffer ["a"; "b"]%string (-1)).
Proof. split; [lia | apply grepBuffer_negative_size_keeps_all; lia]. Defined.

Lemma searchString_before_context_witness :
  let r := textReader "line1
line2
line3
line4
line5
line6 match1
line7 match2
line8" in
  let opt := stdinOption "match" false 2 0 false (mkStream [] None) in
  0 < GrepOption.LinesBeforeMatch opt /\ GrepOption.LinesAfterMatch opt <= 0 /\
  scanErr r = None /\
  let norm s := if GrepOption.IgnoreCase opt then ToLower s else s in
  searchStringWith ToLower r opt =
  Some (beforeContextSpec (Z.to_nat (GrepOption.LinesBeforeMatch opt))
          (fun t => contains (norm t) (norm (GrepOption.Keyword opt))) [] (tokens r), None).
Proof.
  intros r opt. split; [cbn; lia|]. split; [cbn; lia|]. split; [reflexivity|].
  apply (searchString_before_context ToLower); [cbn; lia | cbn; lia | reflexivity].
Defined.

Lemma GrepR_no_files_witness :
  let walk := [("d"%string, WalkEntry true); ("d/x"%string, WalkErr (ErrOther "walk"))] in
  (forall p w, In (p, w) walk -> w <> WalkEntry false) /\
  GrepR [] walk (GrepOption.mk "d" "d" (mkStream [] None) "x" false 0 0 true false) = Some [].
Proof.
  intros walk.
  assert (H : forall p w, In (p, w) walk -> w <> WalkEntry false).
  { intros p w [E|[E|[]]]; injection E as _ <-; discriminate. }
  split; [exact H | apply GrepR_no_files; exact H].
Defined.

Lemma GrepR_app_witness :
  let fSys := [("d/a.txt"%string, File 420 None (textReader "hit"));
               ("d/b.txt"%string, File 420 None (textReader "miss"))] in
  let opt := GrepOption.mk "d" "d" (mkStream [] None) "hit" false 0 0 true false in
  let w1 := [("d"%string, WalkEntry true); ("d/a.txt"%string, WalkEntry false)] in
  let w2 := [("d/b.txt"%string, WalkEntry false)] in
  fileGrepsOk fSys opt (w1 ++ w2) /\
  GrepR fSys (w1 ++ w2) opt =
  match GrepR fSys w1 opt, GrepR fSys w2 opt with
  | Some a, Some b => Some (a ++ b)
  | _, _ => None
  end.
Proof.
  intros fSys opt w1 w2.
  assert (H : fileGrepsOk fSys opt (w1 ++ w2)).
  { intros p Hin. simpl in Hin.
    destruct Hin as [E|[E|[E|[]]]]; injection E as <-; try discriminate;
      eexists; (split; [vm_compute; reflexivity | reflexivity]). }
  split; [exact H | exact (GrepR_app fSys opt w1 w2 H)].
Defined.

Lemma run_single_count_prints_nothing_witness :
  let fSys := [("f.txt"%string, File 420 None (textReader "a
a"))] in
  let opt := GrepOption.mk "f.txt" "f.txt" (mkStream [] None) "a" false 0 0 false true in
  GrepOption.SearchDir opt = false /\ GrepOption.LineCount opt = true /\
  (runOutput fSys [] opt = Some (inr EmptyString) \/
   exists e, runOutput fSys [] opt = Some (inl e)).
Proof.
  intros fSys opt. split; [reflexivity|]. split; [reflexivity|].
  apply run_single_count_prints_nothing; reflexivity.
Defined.
